(** * Database bootstrap module ([src/api/database.py])

    A shallow embedding of the module that configures the SQLAlchemy
    engine, the session factory and the schema / diagnostic helpers,
    together with the properties its specification states.

    Layout: Python values and exceptions, the two string builtins the
    module relies on ([in] on [str], [int] on [str]), configuration
    resolution, engine construction, the effect monad for library calls,
    the helpers, and finally the theorems. *)

From Stdlib Require Import ZArith Ascii String List Lia Bool.
From stdpp Require Import base option gmap strings list fin_maps.

Open Scope Z_scope.
Open Scope string_scope.

(** ** Exceptions and results *)

(** The exception classes that occur in this module.  Every class listed
    here derives from Python's [Exception] except [GeneratorExit], which
    derives from [BaseException] only. *)
Inductive ExnClass :=
  | ValueError
  | AttributeError
  | SQLAlchemyError
  | RuntimeError
  | StopIteration
  | GeneratorExit.

Record Exn := mkExn { exn_class : ExnClass; exn_msg : string }.

(** [isinstance(e, Exception)] *)
Definition is_Exception (e : Exn) : bool :=
  match exn_class e with
  | GeneratorExit => false
  | _ => true
  end.

Inductive result (A : Type) :=
  | Ok (a : A)
  | Raise (e : Exn).
Arguments Ok {A} a.
Arguments Raise {A} e.

(** ** [needle in haystack] on [str] *)

Module Str.

Fixpoint is_prefix (p s : list ascii) : bool :=
  match p, s with
  | [], _ => true
  | _ :: _, [] => false
  | a :: p', b :: s' => Ascii.eqb a b && is_prefix p' s'
  end.

Fixpoint contains (needle hay : list ascii) : bool :=
  is_prefix needle hay ||
  match hay with
  | [] => false
  | _ :: hay' => contains needle hay'
  end.

(** Python's [needle in hay] for two [str] values. *)
Definition str_in (needle hay : string) : bool :=
  contains (list_ascii_of_string needle) (list_ascii_of_string hay).

End Str.

Notation "a 'in_str' b" := (Str.str_in a b) (at level 70, no associativity).

(** ** [int(s)] on [str]

    [int] on a text of ASCII characters, as CPython 3.11 reads it: the
    whitespace characters 9 to 13 and 32 around the literal are skipped,
    one optional sign, then decimal digits in which single underscores may
    separate digits.  A run of more than 4300 digits is refused (the
    interpreter's default [int_max_str_digits]).  [None] stands for
    [ValueError].

    Strings here are byte strings.  Texts with characters outside ASCII
    (for which [int] also reads the other Unicode decimal digits and
    spaces) are outside this model: the statements that depend on a text
    being refused assume the text is ASCII ([is_ascii_text]). *)

Module PyInt.

Definition is_space (a : ascii) : bool :=
  let n := nat_of_ascii a in
  ((9 <=? n)%nat && (n <=? 13)%nat) || Nat.eqb n 32.

Definition digit_val (a : ascii) : option Z :=
  let n := nat_of_ascii a in
  if ((48 <=? n)%nat && (n <=? 57)%nat)
  then Some (Z.of_nat (n - 48))
  else None.

Fixpoint lstrip (l : list ascii) : list ascii :=
  match l with
  | a :: l' => if is_space a then lstrip l' else l
  | [] => []
  end.

Definition strip (l : list ascii) : list ascii :=
  rev (lstrip (rev (lstrip l))).

(** [digits acc prev l]: value of the digit string [l] read after the
    prefix worth [acc]; [prev] tells whether the previous character was
    a digit (an underscore must stand between two digits). *)
Fixpoint digits (acc : Z) (prev : bool) (l : list ascii) : option Z :=
  match l with
  | [] => if prev then Some acc else None
  | a :: l' =>
      if Ascii.eqb a "_"%char
      then (if prev then digits acc false l' else None)
      else match digit_val a with
           | Some d => digits (acc * 10 + d) true l'
           | None => None
           end
  end.

Definition signed (l : list ascii) : option Z :=
  match l with
  | a :: l' =>
      if Ascii.eqb a "-"%char then Z.opp <$> digits 0 false l'
      else if Ascii.eqb a "+"%char then digits 0 false l'
      else digits 0 false l
  | [] => None
  end.

(** The limit on the number of digits.  After the sign the interpreter
    scans the longest run of digits and underscores; when that run is well
    formed and has more digits than the limit, the conversion is refused,
    before anything behind the run is looked at. *)
Definition max_str_digits : N := 4300.

Definition is_digit (a : ascii) : bool :=
  match digit_val a with
  | Some _ => true
  | None => false
  end.

Fixpoint digit_run (l : list ascii) : list ascii :=
  match l with
  | a :: l' => if is_digit a || Ascii.eqb a "_"%char then a :: digit_run l' else []
  | [] => []
  end.

Fixpoint count_digits (l : list ascii) : N :=
  match l with
  | a :: l' => ((if is_digit a then 1 else 0) + count_digits l')%N
  | [] => 0%N
  end.

Definition unsign (l : list ascii) : list ascii :=
  match l with
  | a :: l' => if Ascii.eqb a "-"%char || Ascii.eqb a "+"%char then l' else l
  | [] => []
  end.

Definition over_limit (l : list ascii) : bool :=
  let run := digit_run (unsign l) in
  match digits 0 false run with
  | Some _ => (max_str_digits <? count_digits run)%N
  | None => false
  end.

Definition parse (s : string) : option Z :=
  let l := strip (list_ascii_of_string s) in
  if over_limit l then None else signed l.

(** [str(z)] for an [int], most significant digit first. *)
Definition digit_char (d : N) : ascii := ascii_of_N (48 + d).

Fixpoint render_go (fuel : nat) (n : N) (acc : list ascii) : list ascii :=
  match fuel with
  | O => acc
  | S fuel' =>
      let acc' := digit_char (n mod 10) :: acc in
      if (n <? 10)%N then acc' else render_go fuel' (n / 10) acc'
  end.

Definition render_N (n : N) : list ascii :=
  render_go (S (N.to_nat (N.log2 n))) n [].

Definition str (z : Z) : string :=
  string_of_list_ascii
    (match z with
     | Zneg p => "-"%char :: render_N (Npos p)
     | _ => render_N (Z.to_N z)
     end).

(** [repr(s)] of an ASCII text: single quotes, unless the text has a
    single quote and no double quote; the quote in use and the backslash
    are escaped, tab, newline and return are written with their letter and
    the other control characters as [\xhh]. *)
Definition squote : ascii := ascii_of_nat 39.
Definition dquote : ascii := ascii_of_nat 34.
Definition backslash : ascii := ascii_of_nat 92.

Definition hex_digit (n : nat) : ascii :=
  nth n (list_ascii_of_string "0123456789abcdef") "0"%char.

Definition repr_char (quote a : ascii) : list ascii :=
  let n := nat_of_ascii a in
  if Ascii.eqb a quote || Ascii.eqb a backslash then [backslash; a]
  else if Nat.eqb n 9 then [backslash; "t"%char]
  else if Nat.eqb n 10 then [backslash; "n"%char]
  else if Nat.eqb n 13 then [backslash; "r"%char]
  else if (n <? 32)%nat || Nat.eqb n 127
       then [backslash; "x"%char; hex_digit (n / 16); hex_digit (n mod 16)]
  else [a].

Definition repr (l : list ascii) : list ascii :=
  let quote :=
    if existsb (Ascii.eqb squote) l && negb (existsb (Ascii.eqb dquote) l)
    then dquote else squote in
  (quote :: flat_map (repr_char quote) l ++ [quote])%list.

(** The text of the [ValueError]: the literal is shown by its [repr], cut
    after 200 characters; a refusal for length says so instead. *)
Definition error_text (s : string) : string :=
  let l := list_ascii_of_string s in
  if over_limit (strip l)
  then "Exceeds the limit (4300 digits) for integer string conversion: value has "
       +:+ str (Z.of_N (count_digits (digit_run (unsign (strip l)))))
       +:+ " digits; use sys.set_int_max_str_digits() to increase the limit"
  else "invalid literal for int() with base 10: "
       +:+ string_of_list_ascii (firstn 200 (repr l)).

(** All characters of the text are ASCII. *)
Definition is_ascii_text (s : string) : bool :=
  forallb (fun a => (nat_of_ascii a <? 128)%nat) (list_ascii_of_string s).

End PyInt.

(** [int(s)]: the value, or [ValueError]. *)
Definition py_int (s : string) : result Z :=
  match PyInt.parse s with
  | Some z => Ok z
  | None => Raise (mkExn ValueError (PyInt.error_text s))
  end.

(** ** Configuration resolution (lines 20-31)

    [environ] is the process environment as [os.getenv] sees it after
    [load_dotenv()] has run. *)

Definition getenv (environ : gmap string string) (key dflt : string) : string :=
  default dflt (environ !! key).

Record Settings := mkSettings {
  DATABASE_URL : string;
  DB_POOL_SIZE : Z;
  DB_MAX_OVERFLOW : Z;
  DB_POOL_TIMEOUT : Z;
  DB_POOL_RECYCLE : Z
}.

Definition bind_result {A B} (r : result A) (k : A -> result B) : result B :=
  match r with
  | Ok a => k a
  | Raise e => Raise e
  end.

Definition load_settings (environ : gmap string string) : result Settings :=
  let database_url := getenv environ "DATABASE_URL" "sqlite:///./churn_api.db" in
  bind_result (py_int (getenv environ "DB_POOL_SIZE" "20")) (fun pool_size =>
  bind_result (py_int (getenv environ "DB_MAX_OVERFLOW" "10")) (fun max_overflow =>
  bind_result (py_int (getenv environ "DB_POOL_TIMEOUT" "30")) (fun pool_timeout =>
  bind_result (py_int (getenv environ "DB_POOL_RECYCLE" "3600")) (fun pool_recycle =>
  Ok (mkSettings database_url pool_size max_overflow pool_timeout pool_recycle))))).

(** The four pool tunables, and the test that each one that is set in
    the environment is an integer literal. *)
Definition tunables : list string :=
  ["DB_POOL_SIZE"; "DB_MAX_OVERFLOW"; "DB_POOL_TIMEOUT"; "DB_POOL_RECYCLE"].

Definition integer_valued (environ : gmap string string) : bool :=
  forallb
    (fun key =>
       match environ !! key with
       | Some v => match PyInt.parse v with Some _ => true | None => false end
       | None => true
       end)
    tunables.

(** Each tunable that is set in the environment is an ASCII text. *)
Definition ascii_valued (environ : gmap string string) : bool :=
  forallb
    (fun key =>
       match environ !! key with
       | Some v => PyInt.is_ascii_text v
       | None => true
       end)
    tunables.

(** ** Engine construction (lines 38-78) *)

Inductive PoolClass := QueuePool.

Inductive PyVal :=
  | PyStr (s : string)
  | PyInt (z : Z)
  | PyBool (b : bool).

(** The keyword arguments of one [create_engine] call; [None] is an
    argument the call does not pass (the library default then applies:
    no pre-ping, the dialect's own pool class). *)
Record EngineArgs := mkEngineArgs {
  url : string;
  poolclass : option PoolClass;
  pool_size : option Z;
  max_overflow : option Z;
  pool_timeout : option Z;
  pool_recycle : option Z;
  pool_pre_ping : option bool;
  connect_args : option (list (string * PyVal));
  echo : option bool
}.

Inductive Level := INFO | WARNING | ERROR.

Definition LogLine : Type := Level * string.

(** The module-level [if]/[elif]/[else]: the line it logs and the engine
    it builds. *)
Definition engine_setup (s : Settings) : LogLine * EngineArgs :=
  if ("supabase" in_str DATABASE_URL s) || ("pooler.supabase.com" in_str DATABASE_URL s)
  then
    let connect_arg := [("sslmode", PyStr "require"); ("connect_timeout", PyInt 10)] in
    ((INFO, "Using Supabase PostgreSQL"),
     {| url := DATABASE_URL s;
        poolclass := Some QueuePool;
        pool_size := Some (DB_POOL_SIZE s);
        max_overflow := Some (DB_MAX_OVERFLOW s);
        pool_timeout := Some (DB_POOL_TIMEOUT s);
        pool_recycle := Some (DB_POOL_RECYCLE s);
        pool_pre_ping := Some true;
        connect_args := Some connect_arg;
        echo := Some false |})
  else if "postgresql" in_str DATABASE_URL s
  then
    ((INFO, "Using PostgreSQL"),
     {| url := DATABASE_URL s;
        poolclass := Some QueuePool;
        pool_size := Some (DB_POOL_SIZE s);
        max_overflow := Some (DB_MAX_OVERFLOW s);
        pool_timeout := Some (DB_POOL_TIMEOUT s);
        pool_recycle := Some (DB_POOL_RECYCLE s);
        pool_pre_ping := Some true;
        connect_args := None;
        echo := None |})
  else
    ((WARNING, "Using SQLite (not recommended for production)"),
     {| url := DATABASE_URL s;
        poolclass := None;
        pool_size := None;
        max_overflow := None;
        pool_timeout := None;
        pool_recycle := None;
        pool_pre_ping := None;
        connect_args := Some [("check_same_thread", PyBool false)];
        echo := Some false |}).

Definition engine (s : Settings) : EngineArgs := snd (engine_setup s).

(** ** The world the helpers run in

    Library calls are effects on a [World]: the tables of the target
    database, the tables registered on [Base.metadata], the counters of the
    engine's pool, the trace of library calls made so far, the lines the
    logger received, and an oracle [faults] that decides, call by call,
    whether the next library call succeeds ([None], or an exhausted list)
    or raises. *)

Definition Row : Type := list string.

Record Session := mkSession { session_id : nat }.
Record Connection := mkConnection { connection_id : nat }.

Inductive Call :=
  | CallSessionLocal (db : Session)
  | CallSessionExecute (db : Session) (sql : string)
  | CallSessionClose (db : Session)
  | CallCreateAll
  | CallDropAll
  | CallConnect (conn : Connection)
  | CallConnExecute (conn : Connection) (sql : string)
  | CallConnClose (conn : Connection).

(** The pool object behind [engine.pool].  A [QueuePool] keeps a bounded
    queue of idle connections ([maxsize], [qsize]) and the counter
    [_overflow]; pool classes without counters (the [NullPool] that a
    file-backed SQLite engine gets from 1.x releases of the library) are
    [NullPoolState]. *)
Inductive PoolState :=
  | QueuePoolState (maxsize qsize overflow : Z)
  | NullPoolState.

Record World := mkWorld {
  tables : gmap string (list Row);
  metadata : gset string;
  pool : PoolState;
  next_id : nat;
  trace : list Call;
  log : list LogLine;
  faults : list (option Exn)
}.

Definition M (A : Type) : Type := World -> result A * World.

Definition ret {A} (a : A) : M A := fun w => (Ok a, w).
Definition raise {A} (e : Exn) : M A := fun w => (Raise e, w).
Definition bind {A B} (m : M A) (k : A -> M B) : M B := fun w =>
  match m w with
  | (Ok a, w1) => k a w1
  | (Raise e, w1) => (Raise e, w1)
  end.

Declare Scope py_scope.
Delimit Scope py_scope with py.
Notation "x <- m ;; k" := (bind m (fun x => k))
  (at level 20, m at level 99, k at level 200, only parsing) : py_scope.
Notation "m ;; k" := (bind m (fun _ => k))
  (at level 100, k at level 200, only parsing, right associativity) : py_scope.
Open Scope py_scope.

(** [try: body finally: fin] *)
Definition try_finally {A} (body : M A) (fin : M unit) : M A := fun w =>
  let '(r, w1) := body w in
  match fin w1 with
  | (Ok _, w2) => (r, w2)
  | (Raise e, w2) => (Raise e, w2)
  end.

(** [try: body except Exception as e: handler e] *)
Definition try_except_Exception {A} (body : M A) (handler : Exn -> M A) : M A := fun w =>
  match body w with
  | (Ok a, w1) => (Ok a, w1)
  | (Raise e, w1) => if is_Exception e then handler e w1 else (Raise e, w1)
  end.

(** *** Primitive effects *)

Definition set_faults (fs : list (option Exn)) (w : World) : World :=
  mkWorld (tables w) (metadata w) (pool w) (next_id w) (trace w) (log w) fs.
Definition set_tables (t : gmap string (list Row)) (w : World) : World :=
  mkWorld t (metadata w) (pool w) (next_id w) (trace w) (log w) (faults w).
Definition record_call (c : Call) (w : World) : World :=
  mkWorld (tables w) (metadata w) (pool w) (next_id w) (trace w ++ [c]) (log w) (faults w).
Definition fresh_id : M nat := fun w =>
  (Ok (next_id w),
   mkWorld (tables w) (metadata w) (pool w) (S (next_id w)) (trace w) (log w) (faults w)).
Definition update_tables (f : gmap string (list Row) -> gmap string (list Row)) : M unit :=
  fun w => (Ok tt, set_tables (f (tables w)) w).
Definition get_metadata : M (gset string) := fun w => (Ok (metadata w), w).

(** One call into the library: it is recorded, then the oracle decides.
    A call that raises is taken to have had no effect of its own: what a
    [create_all] or [drop_all] that fails part-way has already created or
    dropped is not modelled.  The statements about a failing call therefore
    speak of the calls made, the exception and the log, and of the tables
    only where every part-way outcome agrees. *)
Definition lib_call (c : Call) : M unit := fun w =>
  let w1 := record_call c w in
  match faults w1 with
  | Some e :: fs => (Raise e, set_faults fs w1)
  | None :: fs => (Ok tt, set_faults fs w1)
  | [] => (Ok tt, w1)
  end.

Definition logger (lvl : Level) (msg : string) : M unit := fun w =>
  (Ok tt,
   mkWorld (tables w) (metadata w) (pool w) (next_id w) (trace w) (log w ++ [(lvl, msg)]) (faults w)).

(** Every fault the database layer can inject is an [Exception]. *)
Definition faults_are_exceptions (w : World) : bool :=
  forallb
    (fun f => match f with Some e => is_Exception e | None => true end)
    (faults w).

(** *** The library operations the module calls

    These stand for the SQLAlchemy calls the module delegates to; each is
    one [lib_call] followed by its effect on the world when it succeeds. *)

(** [SessionLocal()] *)
Definition SessionLocal : M Session :=
  i <- fresh_id ;;
  lib_call (CallSessionLocal (mkSession i)) ;;
  ret (mkSession i).

Definition session_execute (db : Session) (sql : string) : M unit :=
  lib_call (CallSessionExecute db sql).

Definition session_close (db : Session) : M unit :=
  lib_call (CallSessionClose db).

(** [metadata.create_all]: every registered table that is not present is
    created empty; present tables are left as they are. *)
Definition create_tables (reg : gset string) (t : gmap string (list Row)) : gmap string (list Row) :=
  t ∪ gset_to_gmap [] reg.

(** [metadata.drop_all]: every registered table is dropped; other tables
    are not touched. *)
Definition drop_tables (reg : gset string) (t : gmap string (list Row)) : gmap string (list Row) :=
  filter (fun kv => kv.1 ∉ reg) t.

Definition create_all : M unit :=
  lib_call CallCreateAll ;;
  reg <- get_metadata ;;
  update_tables (create_tables reg).

Definition drop_all : M unit :=
  lib_call CallDropAll ;;
  reg <- get_metadata ;;
  update_tables (drop_tables reg).

Definition engine_connect : M Connection :=
  i <- fresh_id ;;
  lib_call (CallConnect (mkConnection i)) ;;
  ret (mkConnection i).

Definition conn_execute (conn : Connection) (sql : string) : M unit :=
  lib_call (CallConnExecute conn sql).

Definition conn_close (conn : Connection) : M unit :=
  lib_call (CallConnClose conn).

(** [with engine.connect() as conn: body]: the connection's [__exit__]
    closes it on both the normal and the exceptional way out. *)
Definition with_connect {A} (body : Connection -> M A) : M A :=
  conn <- engine_connect ;;
  try_finally (body conn) (conn_close conn).

(** The counters of [engine.pool], as the library's [QueuePool] computes
    them: [size()] is the queue's [maxsize], [checkedin()] its [qsize()],
    [checkedout()] is [maxsize - qsize() + _overflow], and [overflow()] is
    [_overflow], except that a pool made with size 0 (which the library
    takes as unbounded) reports 0 (so the 2.x releases; the 1.x releases
    report [_overflow] there as well, and agree everywhere else).  They read
    the pool's memory and are no database calls.  A pool class without
    these methods raises [AttributeError]. *)
Definition no_attribute (name : string) : Exn :=
  mkExn AttributeError ("'NullPool' object has no attribute '" +:+ name +:+ "'").

Definition pool_read (name : string) (f : Z -> Z -> Z -> Z) : M Z := fun w =>
  match pool w with
  | QueuePoolState maxsize qsize overflow => (Ok (f maxsize qsize overflow), w)
  | NullPoolState => (Raise (no_attribute name), w)
  end.

Definition pool_size_ : M Z := pool_read "size" (fun maxsize _ _ => maxsize).
Definition pool_checkedin : M Z := pool_read "checkedin" (fun _ qsize _ => qsize).
Definition pool_checkedout : M Z :=
  pool_read "checkedout" (fun maxsize qsize overflow => maxsize - qsize + overflow).
Definition reported_overflow (maxsize overflow : Z) : Z :=
  if Z.eqb maxsize 0 then 0 else overflow.
Definition pool_overflow : M Z :=
  pool_read "overflow" (fun maxsize _ overflow => reported_overflow maxsize overflow).

(** The pool object of an engine has the class that [create_engine] was
    asked for with [poolclass], and a [QueuePool] has the size asked for
    with [pool_size]; without [poolclass] the dialect chooses the class. *)
Definition pool_matches (args : EngineArgs) (p : PoolState) : bool :=
  match poolclass args, p with
  | Some QueuePool, QueuePoolState maxsize _ _ =>
      match pool_size args with
      | Some n => Z.eqb maxsize n
      | None => true
      end
  | Some QueuePool, NullPoolState => false
  | None, _ => true
  end.

(** ** The scoped session helper (lines 98-114) *)

(** [get_db] up to its [yield]. *)
Definition get_db_enter : M Session := SessionLocal.

(** [get_db] from its [yield] on: the generator is resumed either
    normally or with an exception thrown in at the [yield]. *)
Definition get_db_resume (db : Session) (thrown : option Exn) : M unit :=
  try_finally
    (match thrown with
     | None => ret tt
     | Some e => raise e
     end)
    (session_close db).

(** The generator object that a call of [get_db] returns, and the three
    ways its consumer drives it. *)
Inductive Generator :=
  | GenCreated
  | GenSuspended (db : Session)
  | GenClosed.

Inductive GenOp :=
  | GenNext
  | GenThrow (e : Exn)
  | GenClose.

(** A [StopIteration] that escapes a generator body reaches the caller as
    a [RuntimeError]. *)
Definition escaping (e : Exn) : Exn :=
  match exn_class e with
  | StopIteration => mkExn RuntimeError "generator raised StopIteration"
  | _ => e
  end.

Definition stop_iteration : Exn := mkExn StopIteration "".
Definition generator_exit : Exn := mkExn GeneratorExit "".

(** The result is what the consumer sees: [Ok (Some db)] for a yielded
    session, [Ok None] for a [close()] that returned. *)
Definition gen_step (op : GenOp) (g : Generator) (w : World)
  : result (option Session) * Generator * World :=
  match g, op with
  | GenCreated, GenNext =>
      match get_db_enter w with
      | (Ok db, w1) => (Ok (Some db), GenSuspended db, w1)
      | (Raise e, w1) => (Raise (escaping e), GenClosed, w1)
      end
  | GenCreated, GenThrow e => (Raise e, GenClosed, w)
  | GenCreated, GenClose => (Ok None, GenClosed, w)
  | GenSuspended db, GenNext =>
      match get_db_resume db None w with
      | (Ok _, w1) => (Raise stop_iteration, GenClosed, w1)
      | (Raise e, w1) => (Raise (escaping e), GenClosed, w1)
      end
  | GenSuspended db, GenThrow e =>
      match get_db_resume db (Some e) w with
      | (Ok _, w1) => (Raise stop_iteration, GenClosed, w1)
      | (Raise e', w1) => (Raise (escaping e'), GenClosed, w1)
      end
  | GenSuspended db, GenClose =>
      match get_db_resume db (Some generator_exit) w with
      | (Ok _, w1) => (Ok None, GenClosed, w1)
      | (Raise e', w1) =>
          match exn_class (escaping e') with
          | GeneratorExit => (Ok None, GenClosed, w1)
          | _ => (Raise (escaping e'), GenClosed, w1)
          end
      end
  | GenClosed, GenNext => (Raise stop_iteration, GenClosed, w)
  | GenClosed, GenThrow e => (Raise e, GenClosed, w)
  | GenClosed, GenClose => (Ok None, GenClosed, w)
  end.

Fixpoint gen_run (ops : list GenOp) (g : Generator) (w : World) : Generator * World :=
  match ops with
  | [] => (g, w)
  | op :: ops' =>
      let '(_, g1, w1) := gen_step op g w in
      gen_run ops' g1 w1
  end.

(** How often [close()] was called on [db]. *)
Fixpoint closes (db : Session) (tr : list Call) : nat :=
  match tr with
  | [] => O
  | CallSessionClose db' :: tr' =>
      (if Nat.eqb (session_id db) (session_id db') then 1 else 0)%nat + closes db tr'
  | _ :: tr' => closes db tr'
  end.

(** ** Schema lifecycle helpers (lines 120-157) *)

Definition init_db : M unit :=
  try_except_Exception
    (create_all ;;
     logger INFO "Database tables created successfully" ;;
     with_connect (fun conn =>
       conn_execute conn "SELECT 1" ;;
       logger INFO "Database connection test successful"))
    (fun e =>
       logger ERROR ("Failed to create database tables: " +:+ exn_msg e) ;;
       raise e).

Definition drop_db : M unit :=
  try_except_Exception
    (drop_all ;;
     logger WARNING "All database tables dropped")
    (fun e =>
       logger ERROR ("Failed to drop database tables: " +:+ exn_msg e) ;;
       raise e).

Definition reset_db : M unit :=
  drop_db ;;
  init_db.

(** ** Health check (lines 163-177) *)

Definition check_db_connection : M bool :=
  try_except_Exception
    (db <- SessionLocal ;;
     session_execute db "SELECT 1" ;;
     session_close db ;;
     ret true)
    (fun e =>
       logger ERROR ("Database connection check failed: " +:+ exn_msg e) ;;
       ret false).

(** ** Pool monitoring (lines 183-202) *)

(** The returned [dict], in the order of its literal. *)
Definition get_pool_status : M (list (string * Z)) :=
  size1 <- pool_size_ ;;
  checkedin <- pool_checkedin ;;
  checkedout <- pool_checkedout ;;
  overflow1 <- pool_overflow ;;
  size2 <- pool_size_ ;;
  overflow2 <- pool_overflow ;;
  ret [("pool_size", size1);
       ("checked_in", checkedin);
       ("checked_out", checkedout);
       ("overflow", overflow1);
       ("total_connection", size2 + overflow2)].


(** [str(status)] of a [dict] from [str] to [int]. *)
Fixpoint repr_items (d : list (string * Z)) : string :=
  match d with
  | [] => ""
  | [(k, v)] => "'" +:+ k +:+ "': " +:+ PyInt.str v
  | (k, v) :: d' => "'" +:+ k +:+ "': " +:+ PyInt.str v +:+ ", " +:+ repr_items d'
  end.

Definition repr_dict (d : list (string * Z)) : string :=
  "{" +:+ repr_items d +:+ "}".

Definition log_pool_status : M unit :=
  status <- get_pool_status ;;
  logger INFO ("Connection Pool Status: " +:+ repr_dict status).

(** ** Importing the module (lines 20-78)

    The statements that run at import: the settings are resolved, the
    branch logs its line and calls [create_engine].  The result is the
    settings together with the arguments of that call; whether the library
    accepts them is its own matter. *)
Definition module_import (environ : gmap string string) : M (Settings * EngineArgs) :=
  fun w =>
    match load_settings environ with
    | Raise e => (Raise e, w)
    | Ok s =>
        let '((lvl, msg), args) := engine_setup s in
        (logger lvl msg ;; ret (s, args)) w
    end.

(** * Properties *)

(** Proof automation: [run] evaluates a helper on a world whose fault
    list has been taken apart; [split_faults] splits the assumption that
    the faults are [Exception]s. *)
Ltac split_faults H :=
  unfold faults_are_exceptions in H; simpl in H;
  repeat match type of H with
         | (_ && _)%bool = true => let H' := fresh "Hexn" in apply andb_true_iff in H as [H' H]
         end.

Ltac run :=
  cbv beta iota zeta delta
    [reset_db init_db drop_db check_db_connection with_connect
     create_all drop_all engine_connect conn_execute conn_close
     SessionLocal session_execute session_close get_metadata update_tables
     try_except_Exception try_finally bind ret raise fresh_id lib_call
     logger record_call set_faults set_tables
     tables metadata pool next_id trace log faults fst snd].


(** ** The string builtins on concrete inputs *)

Example in_str_both_markers :
  ("supabase" in_str "postgresql://u@db.supabase.co/postgres") = true.
Proof. reflexivity. Qed.

Example in_str_default_url : ("postgresql" in_str "sqlite:///./churn_api.db") = false.
Proof. reflexivity. Qed.

Example py_int_accepts : py_int " -1_000 " = Ok (-1000) /\ py_int "007" = Ok 7.
Proof. split; reflexivity. Qed.

Example py_int_rejects :
  PyInt.parse "1__0" = None /\ PyInt.parse "" = None /\
  PyInt.parse "+ 5" = None /\ PyInt.parse "12a" = None /\ PyInt.parse "_1" = None.
Proof. repeat split; reflexivity. Qed.

Example py_int_whitespace :
  PyInt.parse (String (ascii_of_nat 28) "7") = None /\
  PyInt.parse (String (ascii_of_nat 11) "7 ") = Some 7.
Proof. split; reflexivity. Qed.

Example py_int_error_texts :
  PyInt.error_text "abc" = "invalid literal for int() with base 10: 'abc'" /\
  PyInt.error_text "a\b" = "invalid literal for int() with base 10: 'a\\b'".
Proof. split; reflexivity. Qed.

Example str_examples :
  PyInt.str (-3600) = "-3600" /\ PyInt.str 0 = "0" /\ PyInt.str 1024 = "1024".
Proof. repeat split; reflexivity. Qed.

(** ** Substring test *)

Section Substring.

Import Str.
Local Open Scope list_scope.

Lemma is_prefix_app (p t : list ascii) : is_prefix p (p ++ t) = true.
Proof.
  induction p as [|a p IH]; simpl; [reflexivity|].
  rewrite Ascii.eqb_refl. exact IH.
Qed.

Lemma is_prefix_inv (p s : list ascii) :
  is_prefix p s = true -> exists t, s = p ++ t.
Proof.
  revert s. induction p as [|a p IH]; intros s H.
  - exists s. reflexivity.
  - destruct s as [|b s]; simpl in H; [discriminate|].
    apply andb_true_iff in H as [Hab Hps].
    apply Ascii.eqb_eq in Hab. subst b.
    destruct (IH _ Hps) as [t ->]. exists t. reflexivity.
Qed.

Lemma contains_unfold (needle hay : list ascii) :
  contains needle hay =
  is_prefix needle hay || match hay with [] => false | _ :: hay' => contains needle hay' end.
Proof. destruct hay; reflexivity. Qed.

(** [contains] decides whether [needle] is a contiguous part of [hay]. *)
Lemma contains_spec (needle hay : list ascii) :
  contains needle hay = true <-> exists pre post, hay = pre ++ needle ++ post.
Proof.
  split.
  - induction hay as [|b hay IH]; simpl; intros H.
    + rewrite orb_false_r in H. apply is_prefix_inv in H as [t Ht].
      exists [], t. exact Ht.
    + apply orb_true_iff in H as [H|H].
      * apply is_prefix_inv in H as [t Ht]. exists [], t. exact Ht.
      * destruct (IH H) as (pre & post & ->). exists (b :: pre), post. reflexivity.
  - intros (pre & post & ->). induction pre as [|b pre IH]; simpl.
    + rewrite contains_unfold, is_prefix_app. reflexivity.
    + rewrite IH. apply orb_true_r.
Qed.

Lemma contains_trans (a b c : list ascii) :
  contains a b = true -> contains b c = true -> contains a c = true.
Proof.
  rewrite !contains_spec.
  intros (p1 & q1 & ->) (p2 & q2 & ->).
  exists (p2 ++ p1), (q1 ++ q2). rewrite <- !app_assoc. reflexivity.
Qed.

Lemma str_in_trans (a b c : string) :
  (a in_str b) = true -> (b in_str c) = true -> (a in_str c) = true.
Proof. unfold str_in. apply contains_trans. Qed.

End Substring.

(** The second test of the first branch never decides: a URL with the
    pooler host name already has the marker. *)
Lemma supabase_test (u : string) :
  ("supabase" in_str u) || ("pooler.supabase.com" in_str u) = ("supabase" in_str u).
Proof.
  destruct ("supabase" in_str u) eqn:E1; [reflexivity|]. simpl.
  destruct ("pooler.supabase.com" in_str u) eqn:E2; [|reflexivity].
  rewrite <- E1. symmetry.
  apply (str_in_trans "supabase" "pooler.supabase.com" u); [reflexivity | exact E2].
Qed.

(** ** Engine construction *)


Lemma engine_file_backed (s : Settings) :
  ("supabase" in_str DATABASE_URL s) || ("postgresql" in_str DATABASE_URL s) = false ->
  poolclass (engine s) = None.
Proof.
  unfold engine, engine_setup. rewrite supabase_test.
  destruct ("supabase" in_str DATABASE_URL s); [discriminate|].
  destruct ("postgresql" in_str DATABASE_URL s); [discriminate|reflexivity].
Qed.

(** C1.  Branch selection on the resolved URL: with the marker
    [supabase] the engine gets the full pool policy, [sslmode] set to
    [require], a connect timeout of 10 and pre-ping; otherwise with the
    marker [postgresql] it gets the same pool policy and pre-ping and
    no [connect_args]; otherwise it is the file-backed engine with no pool
    policy, [check_same_thread] switched off and no pre-ping. *)
Theorem engine_branch_selection (s : Settings) :
  engine s =
    if "supabase" in_str DATABASE_URL s then
      {| url := DATABASE_URL s;
         poolclass := Some QueuePool;
         pool_size := Some (DB_POOL_SIZE s);
         max_overflow := Some (DB_MAX_OVERFLOW s);
         pool_timeout := Some (DB_POOL_TIMEOUT s);
         pool_recycle := Some (DB_POOL_RECYCLE s);
         pool_pre_ping := Some true;
         connect_args := Some [("sslmode", PyStr "require"); ("connect_timeout", PyInt 10)];
         echo := Some false |}
    else if "postgresql" in_str DATABASE_URL s then
      {| url := DATABASE_URL s;
         poolclass := Some QueuePool;
         pool_size := Some (DB_POOL_SIZE s);
         max_overflow := Some (DB_MAX_OVERFLOW s);
         pool_timeout := Some (DB_POOL_TIMEOUT s);
         pool_recycle := Some (DB_POOL_RECYCLE s);
         pool_pre_ping := Some true;
         connect_args := None;
         echo := None |}
    else
      {| url := DATABASE_URL s;
         poolclass := None;
         pool_size := None;
         max_overflow := None;
         pool_timeout := None;
         pool_recycle := None;
         pool_pre_ping := None;
         connect_args := Some [("check_same_thread", PyBool false)];
         echo := Some false |}.
Proof.
  unfold engine, engine_setup. rewrite supabase_test.
  destruct ("supabase" in_str DATABASE_URL s); [reflexivity|].
  destruct ("postgresql" in_str DATABASE_URL s); reflexivity.
Qed.

(** C10.  A URL that carries both markers takes the managed-cloud
    branch: the engine has the forced [sslmode] and the connect timeout of
    10, and the line logged is the managed-cloud one, not the generic
    one. *)
Theorem supabase_branch_has_precedence (s : Settings) :
  ("supabase" in_str DATABASE_URL s) = true ->
  ("postgresql" in_str DATABASE_URL s) = true ->
  connect_args (engine s) =
    Some [("sslmode", PyStr "require"); ("connect_timeout", PyInt 10)] /\
  pool_pre_ping (engine s) = Some true /\
  fst (engine_setup s) = (INFO, "Using Supabase PostgreSQL") /\
  fst (engine_setup s) <> (INFO, "Using PostgreSQL").
Proof.
  intros Hs _. unfold engine, engine_setup. rewrite supabase_test, Hs. simpl.
  repeat split. discriminate.
Qed.

Lemma supabase_branch_has_precedence_witness :
  let s := mkSettings "postgresql://postgres:pw@db.abcd.supabase.co:5432/postgres" 20 10 30 3600 in
  connect_args (engine s) =
    Some [("sslmode", PyStr "require"); ("connect_timeout", PyInt 10)] /\
  pool_pre_ping (engine s) = Some true /\
  fst (engine_setup s) = (INFO, "Using Supabase PostgreSQL") /\
  fst (engine_setup s) <> (INFO, "Using PostgreSQL").
Proof.
  intros s. apply (supabase_branch_has_precedence s); reflexivity.
Defined.

(** ** [int] reads back what [str] writes *)

Section IntLiteral.

Import PyInt.
Local Open Scope list_scope.



















End IntLiteral.


(** ** Configuration resolution *)

Lemma py_int_getenv (environ : gmap string string) (key dflt : string) (d : Z) :
  PyInt.parse dflt = Some d ->
  match environ !! key with
  | Some v => match PyInt.parse v with Some _ => true | None => false end
  | None => true
  end = true ->
  exists z, py_int (getenv environ key dflt) = Ok z /\
            match environ !! key with
            | Some v => py_int v = Ok z
            | None => z = d
            end.
Proof.
  intros Hd H. unfold getenv, py_int. destruct (environ !! key) as [v|]; simpl.
  - destruct (PyInt.parse v) as [z|]; [|discriminate]. exists z. split; reflexivity.
  - rewrite Hd. exists d. split; reflexivity.
Qed.

(** C2.  Each of the five inputs comes from its environment variable
    when that is set and from the fixed default when it is not: the URL
    is the variable's text (default [sqlite:///./churn_api.db]); each
    tunable is the integer its variable spells (defaults 20, 10, 30 and
    3600). *)
Theorem environment_overrides_defaults (environ : gmap string string) :
  integer_valued environ = true ->
  exists s, load_settings environ = Ok s /\
    match environ !! "DATABASE_URL" with
    | Some v => DATABASE_URL s = v
    | None => DATABASE_URL s = "sqlite:///./churn_api.db"
    end /\
    match environ !! "DB_POOL_SIZE" with
    | Some v => py_int v = Ok (DB_POOL_SIZE s)
    | None => DB_POOL_SIZE s = 20
    end /\
    match environ !! "DB_MAX_OVERFLOW" with
    | Some v => py_int v = Ok (DB_MAX_OVERFLOW s)
    | None => DB_MAX_OVERFLOW s = 10
    end /\
    match environ !! "DB_POOL_TIMEOUT" with
    | Some v => py_int v = Ok (DB_POOL_TIMEOUT s)
    | None => DB_POOL_TIMEOUT s = 30
    end /\
    match environ !! "DB_POOL_RECYCLE" with
    | Some v => py_int v = Ok (DB_POOL_RECYCLE s)
    | None => DB_POOL_RECYCLE s = 3600
    end.
Proof.
  unfold integer_valued, tunables. simpl. rewrite !andb_true_iff.
  intros (H1 & H2 & H3 & H4 & _).
  destruct (py_int_getenv environ "DB_POOL_SIZE" "20" 20 eq_refl H1) as (z1 & E1 & P1).
  destruct (py_int_getenv environ "DB_MAX_OVERFLOW" "10" 10 eq_refl H2) as (z2 & E2 & P2).
  destruct (py_int_getenv environ "DB_POOL_TIMEOUT" "30" 30 eq_refl H3) as (z3 & E3 & P3).
  destruct (py_int_getenv environ "DB_POOL_RECYCLE" "3600" 3600 eq_refl H4) as (z4 & E4 & P4).
  eexists. split.
  - unfold load_settings. rewrite E1, E2, E3, E4. reflexivity.
  - cbn [DATABASE_URL DB_POOL_SIZE DB_MAX_OVERFLOW DB_POOL_TIMEOUT DB_POOL_RECYCLE].
    repeat split; try assumption.
    unfold getenv. destruct (environ !! "DATABASE_URL"); reflexivity.
Qed.

Lemma environment_overrides_defaults_witness :
  let environ : gmap string string :=
    {[ "DATABASE_URL" := "postgresql://app@db:5432/churn";
       "DB_POOL_SIZE" := "5"; "DB_POOL_RECYCLE" := "1800" ]} in
  exists s, load_settings environ = Ok s /\
    DATABASE_URL s = "postgresql://app@db:5432/churn" /\
    py_int "5" = Ok (DB_POOL_SIZE s) /\
    DB_MAX_OVERFLOW s = 10 /\
    DB_POOL_TIMEOUT s = 30 /\
    py_int "1800" = Ok (DB_POOL_RECYCLE s).
Proof.
  intros environ.
  exact (environment_overrides_defaults environ eq_refl).
Defined.

Lemma load_settings_rejects (environ : gmap string string) :
  integer_valued environ = false ->
  exists e, load_settings environ = Raise e /\ exn_class e = ValueError.
Proof.
  unfold integer_valued, tunables, load_settings, getenv, py_int. simpl.
  destruct (environ !! "DB_POOL_SIZE") as [v1|]; simpl.
  - destruct (PyInt.parse v1); simpl; [|eexists; split; reflexivity].
    destruct (environ !! "DB_MAX_OVERFLOW") as [v2|]; simpl.
    + destruct (PyInt.parse v2); simpl; [|eexists; split; reflexivity].
      destruct (environ !! "DB_POOL_TIMEOUT") as [v3|]; simpl.
      * destruct (PyInt.parse v3); simpl; [|eexists; split; reflexivity].
        destruct (environ !! "DB_POOL_RECYCLE") as [v4|]; simpl; [|discriminate].
        destruct (PyInt.parse v4); simpl; [discriminate|eexists; split; reflexivity].
      * destruct (environ !! "DB_POOL_RECYCLE") as [v4|]; simpl; [|discriminate].
        destruct (PyInt.parse v4); simpl; [discriminate|eexists; split; reflexivity].
    + destruct (environ !! "DB_POOL_TIMEOUT") as [v3|]; simpl.
      * destruct (PyInt.parse v3); simpl; [|eexists; split; reflexivity].
        destruct (environ !! "DB_POOL_RECYCLE") as [v4|]; simpl; [|discriminate].
        destruct (PyInt.parse v4); simpl; [discriminate|eexists; split; reflexivity].
      * destruct (environ !! "DB_POOL_RECYCLE") as [v4|]; simpl; [|discriminate].
        destruct (PyInt.parse v4); simpl; [discriminate|eexists; split; reflexivity].
  - destruct (environ !! "DB_MAX_OVERFLOW") as [v2|]; simpl.
    + destruct (PyInt.parse v2); simpl; [|eexists; split; reflexivity].
      destruct (environ !! "DB_POOL_TIMEOUT") as [v3|]; simpl.
      * destruct (PyInt.parse v3); simpl; [|eexists; split; reflexivity].
        destruct (environ !! "DB_POOL_RECYCLE") as [v4|]; simpl; [|discriminate].
        destruct (PyInt.parse v4); simpl; [discriminate|eexists; split; reflexivity].
      * destruct (environ !! "DB_POOL_RECYCLE") as [v4|]; simpl; [|discriminate].
        destruct (PyInt.parse v4); simpl; [discriminate|eexists; split; reflexivity].
    + destruct (environ !! "DB_POOL_TIMEOUT") as [v3|]; simpl.
      * destruct (PyInt.parse v3); simpl; [|eexists; split; reflexivity].
        destruct (environ !! "DB_POOL_RECYCLE") as [v4|]; simpl; [|discriminate].
        destruct (PyInt.parse v4); simpl; [discriminate|eexists; split; reflexivity].
      * destruct (environ !! "DB_POOL_RECYCLE") as [v4|]; simpl; [|discriminate].
        destruct (PyInt.parse v4); simpl; [discriminate|eexists; split; reflexivity].
Qed.




(** ** The scoped session helper *)

Lemma closes_app (db : Session) (tr1 tr2 : list Call) :
  closes db (tr1 ++ tr2) = (closes db tr1 + closes db tr2)%nat.
Proof.
  induction tr1 as [|c tr1 IH]; [reflexivity|].
  destruct c; simpl; rewrite IH; lia.
Qed.

(** A finished generator stays finished and touches nothing. *)
Lemma gen_run_closed (ops : list GenOp) (w : World) :
  gen_run ops GenClosed w = (GenClosed, w).
Proof.
  induction ops as [|op ops IH]; [reflexivity|].
  destruct op; simpl; exact IH.
Qed.


(** Leaving the [yield], whichever way, calls [close] on the session once
    and finishes the generator. *)
Lemma gen_step_suspended (op : GenOp) (db : Session) (w : World) :
  exists r w1,
    gen_step op (GenSuspended db) w = (r, GenClosed, w1) /\
    trace w1 = (trace w ++ [CallSessionClose db])%list.
Proof.
  destruct w as [tb md pl nid tr lg fl].
  destruct op as [|e|];
    unfold gen_step, get_db_resume, try_finally, session_close, lib_call, ret, raise;
    destruct fl as [|[e'|] fl]; simpl;
    try (unfold escaping; destruct (exn_class e') eqn:Hclass; simpl; rewrite ?Hclass);
    eauto.
Qed.



(** ** Health check *)

(** With the session factory and the query both working and [close]
    working too, the check answers [True] and the session was closed. *)
Lemma check_db_connection_success (w : World) :
  firstn 3 (faults w) = firstn 3 [None; None; None] ->
  exists w',
    check_db_connection w = (Ok true, w') /\
    trace w' =
      (trace w ++ [CallSessionLocal (mkSession (next_id w));
                   CallSessionExecute (mkSession (next_id w)) "SELECT 1";
                   CallSessionClose (mkSession (next_id w))])%list /\
    log w' = log w.
Proof.
  destruct w as [tb md pl nid tr lg fl]. simpl.
  destruct fl as [|[e0|] [|[e1|] [|[e2|] fl]]]; simpl; intros H;
    try discriminate; run; rewrite <- ?app_assoc; simpl; eauto.
Qed.

(** The check never raises: whatever the database layer does, the
    answer is a boolean. *)
Lemma check_db_connection_never_raises (w : World) :
  faults_are_exceptions w = true ->
  exists b w', check_db_connection w = (Ok b, w').
Proof.
  destruct w as [tb md pl nid tr lg fl]. intros H.
  destruct fl as [|[e0|] [|[e1|] [|[e2|] fl]]]; split_faults H; run;
    rewrite ?Hexn, ?Hexn0, ?Hexn1; eauto.
Qed.

(** C4.  What the code does when the liveness query fails: it logs the
    error and answers [False], and it returns without a call of [close]
    on the session it opened.  (The claim asks for the session to be
    closed on this path as well.) *)
Theorem check_db_connection_failure_leaves_session_open
    (w : World) (e : Exn) (fs : list (option Exn)) :
  faults w = None :: Some e :: fs ->
  is_Exception e = true ->
  exists w',
    check_db_connection w = (Ok false, w') /\
    trace w' =
      (trace w ++ [CallSessionLocal (mkSession (next_id w));
                   CallSessionExecute (mkSession (next_id w)) "SELECT 1"])%list /\
    closes (mkSession (next_id w)) (trace w') = closes (mkSession (next_id w)) (trace w) /\
    log w' = (log w ++ [(ERROR, "Database connection check failed: " +:+ exn_msg e)])%list.
Proof.
  destruct w as [tb md pl nid tr lg fl]. simpl. intros -> He.
  run. rewrite He. eexists. split; [reflexivity|]. simpl.
  rewrite <- app_assoc. simpl. split; [reflexivity|]. split; [|reflexivity].
  rewrite closes_app. simpl. lia.
Qed.

Lemma check_db_connection_failure_leaves_session_open_witness :
  let e := mkExn SQLAlchemyError "could not connect to server" in
  let w := mkWorld ∅ ∅ (QueuePoolState 20 0 (-20)) 0 [] [] [None; Some e] in
  exists w',
    check_db_connection w = (Ok false, w') /\
    trace w' = [CallSessionLocal (mkSession 0); CallSessionExecute (mkSession 0) "SELECT 1"] /\
    closes (mkSession 0) (trace w') = 0%nat /\
    log w' = [(ERROR, "Database connection check failed: could not connect to server")].
Proof.
  intros e w.
  exact (check_db_connection_failure_leaves_session_open w e [] eq_refl eq_refl).
Defined.

(** ** Schema lifecycle *)

Section Schema.

Context (reg : gset string) (t : gmap string (list Row)).

Lemma create_tables_lookup (k : string) :
  create_tables reg t !! k =
    match t !! k with
    | Some rows => Some rows
    | None => if decide (k ∈ reg) then Some [] else None
    end.
Proof.
  unfold create_tables. destruct (t !! k) as [rows|] eqn:E.
  - apply lookup_union_Some_l, E.
  - rewrite lookup_union_r by exact E.
    destruct (decide (k ∈ reg)) as [Hin|Hout].
    + apply lookup_gset_to_gmap_Some. auto.
    + apply lookup_gset_to_gmap_None, Hout.
Qed.

Lemma drop_tables_lookup (k : string) :
  drop_tables reg t !! k = if decide (k ∈ reg) then None else t !! k.
Proof.
  unfold drop_tables. destruct (decide (k ∈ reg)) as [Hin|Hout].
  - apply map_lookup_filter_None_2. right. intros rows _ Hk. apply Hk, Hin.
  - destruct (t !! k) as [rows|] eqn:E.
    + apply map_lookup_filter_Some_2; [exact E | exact Hout].
    + apply map_lookup_filter_None_2. left. exact E.
Qed.

(** Creating keeps what is there and adds what is registered. *)
Lemma create_tables_dom : dom (create_tables reg t) = dom t ∪ reg.
Proof.
  apply set_eq. intros k.
  rewrite elem_of_union, !elem_of_dom, create_tables_lookup.
  destruct (t !! k) as [rows|]; [|destruct (decide (k ∈ reg)) as [Hin|Hout]].
  - split; [intros _; left; eauto | intros _; eauto].
  - split; [intros _; right; exact Hin | intros _; eauto].
  - split; [intros [x Hx]; discriminate Hx |].
    intros [[x Hx]|Hin]; [discriminate Hx | contradiction].
Qed.

End Schema.

(** Dropping and then creating: registered tables end up empty, every
    other table is as it was. *)
Lemma reset_tables_lookup (reg : gset string) (t : gmap string (list Row)) (k : string) :
  create_tables reg (drop_tables reg t) !! k =
    if decide (k ∈ reg) then Some [] else t !! k.
Proof.
  rewrite create_tables_lookup, drop_tables_lookup.
  destruct (decide (k ∈ reg)); [reflexivity|]. destruct (t !! k); reflexivity.
Qed.

Lemma reset_tables_dom (reg : gset string) (t : gmap string (list Row)) :
  dom (create_tables reg (drop_tables reg t)) = dom t ∪ reg.
Proof.
  apply set_eq. intros k.
  rewrite elem_of_union, !elem_of_dom, reset_tables_lookup.
  destruct (decide (k ∈ reg)) as [Hin|Hout].
  - split; [intros _; right; exact Hin | intros _; eauto].
  - split; [intros H; left; exact H | intros [H|H]; [exact H | contradiction]].
Qed.

(** What a successful [drop_db] and a successful [init_db] leave behind. *)
Lemma drop_db_ok (w w1 : World) :
  drop_db w = (Ok tt, w1) ->
  tables w1 = drop_tables (metadata w) (tables w) /\
  metadata w1 = metadata w /\
  next_id w1 = next_id w /\
  trace w1 = (trace w ++ [CallDropAll])%list.
Proof.
  destruct w as [tb md pl nid tr lg fl].
  destruct fl as [|[e0|] fl]; run;
    try (destruct (is_Exception e0));
    intros H; first [discriminate H | injection H as <-];
    repeat split; reflexivity.
Qed.

Lemma init_db_ok (w w' : World) :
  init_db w = (Ok tt, w') ->
  tables w' = create_tables (metadata w) (tables w) /\
  trace w' =
    (trace w ++ [CallCreateAll; CallConnect (mkConnection (next_id w));
                 CallConnExecute (mkConnection (next_id w)) "SELECT 1";
                 CallConnClose (mkConnection (next_id w))])%list.
Proof.
  destruct w as [tb md pl nid tr lg fl].
  destruct fl as [|[e0|] [|[e1|] [|[e2|] [|[e3|] fl]]]]; run;
    repeat match goal with
           | |- context [is_Exception ?e] => destruct (is_Exception e)
           end;
    intros H; first [discriminate H | injection H as <-];
    rewrite <- ?app_assoc; split; reflexivity.
Qed.

(** C5, as stated, fails: a table that is not registered survives the
    reset, so with one registered table two tables exist afterwards. *)
Lemma reset_db_keeps_unregistered_table :
  let w := mkWorld {[ "alembic_version" := [["9f1c"]] ]} {[ "predictions" ]}
                   (QueuePoolState 20 0 (-20)) 0 [] [] [] in
  fst (reset_db w) = Ok tt /\
  size (metadata w) = 1%nat /\
  size (dom (tables (snd (reset_db w)))) = 2%nat /\
  tables (snd (reset_db w)) !! "alembic_version" = Some [["9f1c"]].
Proof. vm_compute. repeat split; reflexivity. Qed.

(** C5, amended.  [reset_db] runs [drop_db] and then [init_db].  When it
    returns, every registered table exists and is empty, and every table
    outside the registry is as it was before; so the tables that exist are
    the registered ones together with the unregistered ones that existed
    before, and they are exactly the N registered ones when the database
    held no unregistered table. *)
Theorem reset_db_tables (w w' : World) :
  reset_db w = (Ok tt, w') ->
  let conn := mkConnection (next_id w) in
  trace w' =
    (trace w ++ [CallDropAll; CallCreateAll; CallConnect conn;
                 CallConnExecute conn "SELECT 1"; CallConnClose conn])%list /\
  (forall k, k ∈ metadata w -> tables w' !! k = Some []) /\
  (forall k, k ∉ metadata w -> tables w' !! k = tables w !! k) /\
  dom (tables w') = dom (tables w) ∪ metadata w /\
  (dom (tables w) ⊆ metadata w ->
   dom (tables w') = metadata w /\ size (dom (tables w')) = size (metadata w)).
Proof.
  intros H. unfold reset_db, bind in H.
  destruct (drop_db w) as [[[]|e] w1] eqn:Hdrop; [|discriminate H].
  apply drop_db_ok in Hdrop as (Ht1 & Hmd & Hid & Htr1).
  apply init_db_ok in H as (Ht & Htr).
  rewrite Ht1, Hmd in Ht. rewrite Htr1, Hid, <- app_assoc in Htr. simpl in Htr.
  set (md := metadata w) in *. set (tb := tables w) in *.
  simpl. split; [exact Htr|]. rewrite Ht.
  split; [|split; [|split]].
  - intros k Hk. rewrite reset_tables_lookup. destruct (decide (k ∈ md)); [reflexivity|contradiction].
  - intros k Hk. rewrite reset_tables_lookup. destruct (decide (k ∈ md)); [contradiction|reflexivity].
  - apply reset_tables_dom.
  - intros Hsub. rewrite reset_tables_dom.
    rewrite (subseteq_union_1_L _ _ Hsub). split; reflexivity.
Qed.

Lemma reset_db_tables_witness :
  let w := mkWorld {[ "predictions" := [["42"; "0.83"]] ]} {[ "predictions"; "users" ]}
                   (QueuePoolState 20 0 (-20)) 0 [] [] [] in
  tables (snd (reset_db w)) !! "predictions" = Some [] /\
  tables (snd (reset_db w)) !! "users" = Some [] /\
  size (dom (tables (snd (reset_db w)))) = size (metadata w).
Proof.
  intros w.
  assert (reset_db w = (Ok tt, snd (reset_db w))) as Hrun by (vm_compute; reflexivity).
  destruct (reset_db_tables w (snd (reset_db w)) Hrun) as (_ & Hreg & _ & _ & Hexact).
  split; [apply Hreg; apply (bool_decide_unpack _); vm_compute; exact I|].
  split; [apply Hreg; apply (bool_decide_unpack _); vm_compute; exact I|].
  apply Hexact. apply (bool_decide_unpack _). vm_compute. exact I.
Defined.

Lemma create_tables_keeps (reg : gset string) (t : gmap string (list Row)) :
  (forall k, k ∈ reg -> is_Some (create_tables reg t !! k)) /\
  (forall k rows, t !! k = Some rows -> create_tables reg t !! k = Some rows).
Proof.
  split.
  - intros k Hk. rewrite create_tables_lookup.
    destruct (t !! k); [eauto|]. destruct (decide (k ∈ reg)); [eauto | contradiction].
  - intros k rows Hk. rewrite create_tables_lookup, Hk. reflexivity.
Qed.

(** C6.  [init_db] asks the library to create the registered tables
    that are missing, then opens a connection, runs [SELECT 1] on it and
    closes it, logging a success line after each of the two stages.  If
    any of these library calls raises, the last line logged is the error
    with the exception's text, and that exception reaches the caller. *)
Theorem init_db_creates_checks_and_reraises (w : World) :
  faults_are_exceptions w = true ->
  let conn := mkConnection (next_id w) in
  match init_db w with
  | (Ok _, w') =>
      Forall (fun f => f = None) (firstn 4 (faults w)) /\
      tables w' = create_tables (metadata w) (tables w) /\
      (forall k, k ∈ metadata w -> is_Some (tables w' !! k)) /\
      (forall k rows, tables w !! k = Some rows -> tables w' !! k = Some rows) /\
      trace w' =
        (trace w ++ [CallCreateAll; CallConnect conn;
                     CallConnExecute conn "SELECT 1"; CallConnClose conn])%list /\
      log w' =
        (log w ++ [(INFO, "Database tables created successfully");
                   (INFO, "Database connection test successful")])%list
  | (Raise e, w') =>
      In (Some e) (firstn 4 (faults w)) /\
      last (log w') = Some (ERROR, "Failed to create database tables: " +:+ exn_msg e)
  end.
Proof.
  destruct w as [tb md pl nid tr lg fl]. intros H.
  destruct (create_tables_keeps md tb) as [Hnew Hold].
  destruct fl as [|[e0|] [|[e1|] [|[e2|] [|[e3|] fl]]]]; split_faults H; run;
    rewrite ?Hexn, ?Hexn0, ?Hexn1, ?Hexn2; cbv beta iota;
    first
      [ split; [cbn [firstn In]; tauto | rewrite last_snoc; reflexivity]
      | rewrite <- ?app_assoc; cbn [firstn app];
        split; [repeat constructor|];
        split; [reflexivity|];
        split; [exact Hnew|];
        split; [exact Hold|];
        split; reflexivity ].
Qed.

Lemma init_db_creates_checks_and_reraises_witness :
  let boom := mkExn SQLAlchemyError "connection refused" in
  let w := mkWorld {[ "users" := [["ann"]] ]} {[ "users"; "predictions" ]}
                   (QueuePoolState 20 0 (-20)) 3 [] [] [] in
  (tables (snd (init_db w)) !! "users" = Some [["ann"]] /\
   is_Some (tables (snd (init_db w)) !! "predictions") /\
   log (snd (init_db w)) =
     [(INFO, "Database tables created successfully");
      (INFO, "Database connection test successful")]) /\
  (fst (init_db (set_faults [None; Some boom] w)) = Raise boom /\
   last (log (snd (init_db (set_faults [None; Some boom] w)))) =
     Some (ERROR, "Failed to create database tables: connection refused")).
Proof.
  intros boom w. split.
  - destruct (init_db_creates_checks_and_reraises w eq_refl)
      as (_ & _ & Hnew & Hold & _ & Hlog).
    split; [apply Hold; reflexivity|].
    split; [apply Hnew; apply (bool_decide_unpack _); vm_compute; exact I|].
    exact Hlog.
  - destruct (init_db_creates_checks_and_reraises (set_faults [None; Some boom] w) eq_refl)
      as [_ Hlog].
    split; [reflexivity | exact Hlog].
Defined.

(** ** Pool monitoring *)

Lemma get_pool_status_queue (w : World) (maxsize qsize overflow : Z) :
  pool w = QueuePoolState maxsize qsize overflow ->
  get_pool_status w =
    (Ok [("pool_size", maxsize);
         ("checked_in", qsize);
         ("checked_out", maxsize - qsize + overflow);
         ("overflow", reported_overflow maxsize overflow);
         ("total_connection", maxsize + reported_overflow maxsize overflow)], w).
Proof.
  intros Hp.
  unfold get_pool_status, pool_size_, pool_checkedin, pool_checkedout,
    pool_overflow, pool_read, bind, ret.
  repeat (rewrite Hp; cbv beta iota). reflexivity.
Qed.

Lemma get_pool_status_null (w : World) :
  pool w = NullPoolState ->
  get_pool_status w = (Raise (no_attribute "size"), w).
Proof.
  intros Hp. unfold get_pool_status, pool_size_, pool_read, bind.
  rewrite Hp. reflexivity.
Qed.




(** C8, as stated, fails.  The file-backed engine is built without
    [poolclass], so its pool is the one the dialect chooses.  If that is a
    [NullPool], the first counter read raises [AttributeError] and
    [log_pool_status] raises with it; if it is a [QueuePool], the values
    are the live counters, here with one connection checked out. *)
Lemma fallback_pool_status_raises_or_is_live :
  let s := mkSettings "sqlite:///./churn_api.db" 20 10 30 3600 in
  let w1 := mkWorld ∅ ∅ NullPoolState 0 [] [] [] in
  let w2 := mkWorld ∅ ∅ (QueuePoolState 5 0 (-4)) 0 [] [] [] in
  load_settings ∅ = Ok s /\
  poolclass (engine s) = None /\
  pool_matches (engine s) (pool w1) = true /\
  pool_matches (engine s) (pool w2) = true /\
  get_pool_status w1 = (Raise (no_attribute "size"), w1) /\
  log_pool_status w1 = (Raise (no_attribute "size"), w1) /\
  get_pool_status w2 =
    (Ok [("pool_size", 5); ("checked_in", 0); ("checked_out", 1);
         ("overflow", -4); ("total_connection", 1)], w2).
Proof. repeat split; reflexivity. Qed.

(** C8, amended.  On the file-backed engine [get_pool_status] and
    [log_pool_status] take no path of their own: they read the counters of
    the pool the engine has.  With a [QueuePool] they return, and log, its
    current values; with a pool that has no counters the
    [AttributeError] of the first read reaches the caller and nothing is
    logged. *)
Theorem pool_status_on_fallback_engine (s : Settings) (w : World) :
  ("supabase" in_str DATABASE_URL s) = false ->
  ("postgresql" in_str DATABASE_URL s) = false ->
  poolclass (engine s) = None /\
  match pool w with
  | QueuePoolState maxsize qsize overflow =>
      let status := [("pool_size", maxsize);
                     ("checked_in", qsize);
                     ("checked_out", maxsize - qsize + overflow);
                     ("overflow", reported_overflow maxsize overflow);
                     ("total_connection", maxsize + reported_overflow maxsize overflow)] in
      get_pool_status w = (Ok status, w) /\
      exists w',
        log_pool_status w = (Ok tt, w') /\
        log w' = (log w ++ [(INFO, "Connection Pool Status: " +:+ repr_dict status)])%list
  | NullPoolState =>
      get_pool_status w = (Raise (no_attribute "size"), w) /\
      log_pool_status w = (Raise (no_attribute "size"), w)
  end.
Proof.
  intros Hs Hp. split.
  { apply engine_file_backed. rewrite Hs, Hp. reflexivity. }
  destruct (pool w) as [maxsize qsize overflow|] eqn:E.
  - pose proof (get_pool_status_queue w _ _ _ E) as Hst.
    split; [exact Hst|].
    unfold log_pool_status, bind. rewrite Hst.
    eexists. split; reflexivity.
  - pose proof (get_pool_status_null w E) as Hst.
    split; [exact Hst|].
    unfold log_pool_status, bind. rewrite Hst. reflexivity.
Qed.

Lemma pool_status_on_fallback_engine_witness :
  let s := mkSettings "sqlite:///./churn_api.db" 20 10 30 3600 in
  let w := mkWorld ∅ ∅ (QueuePoolState 5 1 (-4)) 0 [] [] [] in
  poolclass (engine s) = None /\
  get_pool_status w =
    (Ok [("pool_size", 5); ("checked_in", 1); ("checked_out", 0);
         ("overflow", -4); ("total_connection", 1)], w) /\
  exists w',
    log_pool_status w = (Ok tt, w') /\
    log w' =
      [(INFO, "Connection Pool Status: {'pool_size': 5, 'checked_in': 1, 'checked_out': 0, 'overflow': -4, 'total_connection': 1}")].
Proof.
  intros s w. exact (pool_status_on_fallback_engine s w eq_refl eq_refl).
Defined.

(** * Further properties of the module *)

(** ** Where the markers may stand *)

Lemma list_ascii_of_string_app (a b : string) :
  list_ascii_of_string (a +:+ b) =
  (list_ascii_of_string a ++ list_ascii_of_string b)%list.
Proof. induction a as [|c a IH]; simpl; [reflexivity|]. rewrite IH. reflexivity. Qed.

(** [needle in hay] holds exactly when [hay] is some text, then [needle],
    then some text. *)
Lemma str_in_spec (needle hay : string) :
  (needle in_str hay) = true <-> exists pre post, hay = pre +:+ needle +:+ post.
Proof.
  unfold Str.str_in. rewrite contains_spec. split.
  - intros (pre & post & E).
    exists (string_of_list_ascii pre), (string_of_list_ascii post).
    rewrite <- (string_of_list_ascii_of_string hay), E.
    rewrite <- (list_ascii_of_string_of_list_ascii pre) at 1.
    rewrite <- (list_ascii_of_string_of_list_ascii post) at 1.
    rewrite <- !list_ascii_of_string_app.
    apply string_of_list_ascii_of_string.
  - intros (pre & post & ->).
    exists (list_ascii_of_string pre), (list_ascii_of_string post).
    rewrite !list_ascii_of_string_app. reflexivity.
Qed.

(** X1.  The engine is given the forced [sslmode] and the connect
    timeout exactly when the URL has the text [supabase] somewhere in it,
    be it in the host, the user, the password or the database name. *)
Theorem ssl_forced_iff_marker_anywhere (s : Settings) :
  connect_args (engine s) =
    Some [("sslmode", PyStr "require"); ("connect_timeout", PyInt 10)]
  <-> exists pre post, DATABASE_URL s = pre +:+ "supabase" +:+ post.
Proof.
  rewrite <- str_in_spec. unfold engine, engine_setup. rewrite supabase_test.
  destruct ("supabase" in_str DATABASE_URL s).
  - split; reflexivity.
  - destruct ("postgresql" in_str DATABASE_URL s); split; discriminate.
Qed.

(** X2.  On a URL without either marker the four pool tunables have no
    effect: the engine is built from the URL alone. *)
Theorem fallback_engine_ignores_tunables
    (u : string) (a b c d a' b' c' d' : Z) :
  ("supabase" in_str u) = false ->
  ("postgresql" in_str u) = false ->
  engine (mkSettings u a b c d) = engine (mkSettings u a' b' c' d').
Proof.
  intros Hs Hp. unfold engine, engine_setup. simpl.
  rewrite !supabase_test, Hs, Hp. reflexivity.
Qed.

Lemma fallback_engine_ignores_tunables_witness :
  engine (mkSettings "sqlite:///./churn_api.db" 20 10 30 3600) =
  engine (mkSettings "sqlite:///./churn_api.db" 1 0 5 60).
Proof.
  apply fallback_engine_ignores_tunables; reflexivity.
Defined.

(** ** Importing the module *)

(** X3.  A tunable that is set to an ASCII text that [int] refuses
    makes the import raise [ValueError] before anything is logged, whatever
    the URL is: also on the file-backed branch, which never uses the
    tunables. *)
Theorem import_fails_on_bad_tunable (environ : gmap string string) (w : World) :
  ascii_valued environ = true ->
  integer_valued environ = false ->
  exists e, module_import environ w = (Raise e, w) /\ exn_class e = ValueError.
Proof.
  intros _ H. destruct (load_settings_rejects environ H) as (e & He & Hc).
  exists e. unfold module_import. rewrite He. split; [reflexivity | exact Hc].
Qed.

Lemma import_fails_on_bad_tunable_witness :
  let w := mkWorld ∅ ∅ NullPoolState 0 [] [] [] in
  exists e,
    module_import {[ "DB_POOL_RECYCLE" := "1h" ]} w = (Raise e, w) /\
    exn_class e = ValueError.
Proof.
  intros w. apply import_fails_on_bad_tunable; vm_compute; reflexivity.
Defined.

(** X4.  A successful import logs exactly one line, and that line is a
    warning exactly when the URL has neither marker; with a marker it is
    an [INFO] line. *)
Theorem import_logs_one_line (environ : gmap string string) (s : Settings) (w : World) :
  load_settings environ = Ok s ->
  exists lvl msg w',
    module_import environ w = (Ok (s, engine s), w') /\
    log w' = (log w ++ [(lvl, msg)])%list /\
    (lvl = WARNING <->
     ("supabase" in_str DATABASE_URL s) = false /\
     ("postgresql" in_str DATABASE_URL s) = false) /\
    (lvl = INFO <->
     ("supabase" in_str DATABASE_URL s) || ("postgresql" in_str DATABASE_URL s) = true).
Proof.
  intros Hs. unfold module_import, engine. rewrite Hs.
  unfold engine_setup. rewrite supabase_test.
  destruct ("supabase" in_str DATABASE_URL s);
    [|destruct ("postgresql" in_str DATABASE_URL s)];
    eexists _, _, _; (split; [reflexivity|]); (split; [reflexivity|]);
    simpl; split; split; intros H; try discriminate H; try reflexivity;
    try (destruct H; discriminate); auto.
Qed.

Lemma import_logs_one_line_witness :
  let w := mkWorld ∅ ∅ NullPoolState 0 [] [] [] in
  exists s lvl msg w',
    load_settings {[ "DATABASE_URL" := "mysql://app@db/churn" ]} = Ok s /\
    module_import {[ "DATABASE_URL" := "mysql://app@db/churn" ]} w = (Ok (s, engine s), w') /\
    log w' = [(lvl, msg)] /\ lvl = WARNING.
Proof.
  intros w.
  assert (load_settings {[ "DATABASE_URL" := "mysql://app@db/churn" ]} =
          Ok (mkSettings "mysql://app@db/churn" 20 10 30 3600)) as Hs
    by (vm_compute; reflexivity).
  destruct (import_logs_one_line _ _ w Hs)
    as (lvl & msg & w' & Hrun & Hlog & Hwarn & _).
  exists (mkSettings "mysql://app@db/churn" 20 10 30 3600), lvl, msg, w'.
  split; [exact Hs|]. split; [exact Hrun|]. split; [exact Hlog|].
  apply Hwarn. split; reflexivity.
Defined.

Lemma py_int_getenv_raise (environ : gmap string string) (key dflt : string) (e : Exn) :
  PyInt.parse dflt <> None ->
  py_int (getenv environ key dflt) = Raise e ->
  exn_class e = ValueError /\
  exists v, environ !! key = Some v /\ PyInt.parse v = None.
Proof.
  unfold py_int, getenv. intros Hd.
  destruct (environ !! key) as [v|]; simpl.
  - destruct (PyInt.parse v) eqn:E; [discriminate|].
    intros [= <-]. split; [reflexivity|]. exists v. split; [reflexivity | exact E].
  - destruct (PyInt.parse dflt); [discriminate | contradiction].
Qed.

(** X5.  When resolving the settings raises, with tunables given as
    ASCII texts, the error is a [ValueError] and its cause is one of the
    four tunables that is set in the environment to a text [int] refuses;
    the defaults never raise. *)
Theorem settings_error_comes_from_a_set_tunable
    (environ : gmap string string) (e : Exn) :
  ascii_valued environ = true ->
  load_settings environ = Raise e ->
  exn_class e = ValueError /\
  exists key v,
    In key tunables /\ environ !! key = Some v /\ PyInt.parse v = None.
Proof.
  intros _. unfold load_settings, tunables.
  destruct (py_int (getenv environ "DB_POOL_SIZE" "20")) as [z1|e1] eqn:E1; simpl.
  2:{ intros [= <-]. apply py_int_getenv_raise in E1 as (Hc & v & H); [|discriminate].
      split; [exact Hc|]. exists "DB_POOL_SIZE", v. simpl. tauto. }
  destruct (py_int (getenv environ "DB_MAX_OVERFLOW" "10")) as [z2|e2] eqn:E2; simpl.
  2:{ intros [= <-]. apply py_int_getenv_raise in E2 as (Hc & v & H); [|discriminate].
      split; [exact Hc|]. exists "DB_MAX_OVERFLOW", v. simpl. tauto. }
  destruct (py_int (getenv environ "DB_POOL_TIMEOUT" "30")) as [z3|e3] eqn:E3; simpl.
  2:{ intros [= <-]. apply py_int_getenv_raise in E3 as (Hc & v & H); [|discriminate].
      split; [exact Hc|]. exists "DB_POOL_TIMEOUT", v. simpl. tauto. }
  destruct (py_int (getenv environ "DB_POOL_RECYCLE" "3600")) as [z4|e4] eqn:E4; simpl.
  2:{ intros [= <-]. apply py_int_getenv_raise in E4 as (Hc & v & H); [|discriminate].
      split; [exact Hc|]. exists "DB_POOL_RECYCLE", v. simpl. tauto. }
  discriminate.
Qed.

Lemma settings_error_comes_from_a_set_tunable_witness :
  exists e,
    load_settings {[ "DB_POOL_SIZE" := "8"; "DB_POOL_TIMEOUT" := "3.5" ]} = Raise e /\
    exn_class e = ValueError /\
    exists key v,
      In key tunables /\
      ({[ "DB_POOL_SIZE" := "8"; "DB_POOL_TIMEOUT" := "3.5" ]} : gmap string string) !! key
        = Some v /\
      PyInt.parse v = None.
Proof.
  eexists. split; [vm_compute; reflexivity|].
  apply (settings_error_comes_from_a_set_tunable
           {[ "DB_POOL_SIZE" := "8"; "DB_POOL_TIMEOUT" := "3.5" ]});
    vm_compute; reflexivity.
Defined.

(** ** The scoped session helper, from creation on *)

(** What the first [next] does. *)
Lemma gen_next_created_cases (w : World) :
  let db := mkSession (next_id w) in
  (hd None (faults w) = None /\
   exists w1, gen_step GenNext GenCreated w = (Ok (Some db), GenSuspended db, w1) /\
              trace w1 = (trace w ++ [CallSessionLocal db])%list) \/
  (exists e w1,
     hd None (faults w) = Some e /\
     gen_step GenNext GenCreated w = (Raise (escaping e), GenClosed, w1) /\
     trace w1 = (trace w ++ [CallSessionLocal db])%list).
Proof.
  destruct w as [tb md pl nid tr lg fl].
  unfold gen_step, get_db_enter, SessionLocal, bind, fresh_id, lib_call, ret.
  destruct fl as [|[e|] fl]; simpl; eauto 8.
Qed.

(** X6.  Whatever the consumer does with the generator of [get_db], and
    in whatever order, the helper makes no library call other than one
    [SessionLocal()] and one [close()] on the session that call returned.
    While the generator is suspended the session is open; once it is
    finished, either no session was ever asked for, or [SessionLocal()]
    itself raised, or the session was opened and closed once. *)
Theorem get_db_session_lifecycle (ops : list GenOp) (w : World) :
  let db := mkSession (next_id w) in
  match gen_run ops GenCreated w with
  | (GenCreated, w') => ops = [] /\ w' = w
  | (GenSuspended db', w') =>
      db' = db /\ hd None (faults w) = None /\
      trace w' = (trace w ++ [CallSessionLocal db])%list
  | (GenClosed, w') =>
      trace w' = trace w \/
      ((exists e, hd None (faults w) = Some e) /\
       trace w' = (trace w ++ [CallSessionLocal db])%list) \/
      (hd None (faults w) = None /\
       trace w' = (trace w ++ [CallSessionLocal db; CallSessionClose db])%list)
  end.
Proof.
  intros db. destruct ops as [|op ops]; [simpl; auto|].
  destruct op as [|e|].
  - cbn [gen_run].
    destruct (gen_next_created_cases w) as [(Hok & w1 & Hstep & Htr) | (e & w1 & Hf & Hstep & Htr)];
      fold db in Hstep, Htr; rewrite Hstep.
    + destruct ops as [|op ops]; [simpl; auto|].
      cbn [gen_run].
      destruct (gen_step_suspended op db w1) as (r & w2 & Hstep2 & Htr2).
      rewrite Hstep2, gen_run_closed. right. right.
      split; [exact Hok|]. rewrite Htr2, Htr, <- app_assoc. reflexivity.
    + rewrite gen_run_closed. right. left. split; [eauto | exact Htr].
  - cbn [gen_run gen_step]. rewrite gen_run_closed. left. reflexivity.
  - cbn [gen_run gen_step]. rewrite gen_run_closed. left. reflexivity.
Qed.

(** X7.  An exception that the caller's code throws into [get_db] at its
    [yield] comes back out to the caller after the session was closed: the
    helper does not swallow it.  (A [StopIteration] would come back as a
    [RuntimeError].) *)
Theorem get_db_propagates_callers_exception (w : World) (db : Session) (e : Exn) :
  hd None (faults w) = None ->
  exn_class e <> StopIteration ->
  exists w',
    gen_step (GenThrow e) (GenSuspended db) w = (Raise e, GenClosed, w') /\
    trace w' = (trace w ++ [CallSessionClose db])%list.
Proof.
  destruct w as [tb md pl nid tr lg fl]. simpl. intros Hf He.
  assert (escaping e = e) as Hesc.
  { unfold escaping. destruct (exn_class e); try reflexivity. contradiction. }
  unfold gen_step, get_db_resume, try_finally, session_close, lib_call, raise.
  destruct fl as [|[e'|] fl]; simpl in *; try discriminate;
    rewrite Hesc; eauto.
Qed.

Lemma get_db_propagates_callers_exception_witness :
  let e := mkExn ValueError "bad request" in
  let w := mkWorld ∅ ∅ NullPoolState 1 [CallSessionLocal (mkSession 0)] [] [] in
  exists w',
    gen_step (GenThrow e) (GenSuspended (mkSession 0)) w = (Raise e, GenClosed, w') /\
    trace w' = [CallSessionLocal (mkSession 0); CallSessionClose (mkSession 0)].
Proof.
  intros e w.
  apply (get_db_propagates_callers_exception w (mkSession 0) e); [reflexivity | discriminate].
Defined.

(** X8.  When [db.close()] itself raises in the [finally] block, its
    exception is the one the consumer sees, on each of the three ways out
    of the [yield]; an exception the caller threw in is lost. *)
Theorem get_db_close_failure_masks (w : World) (db : Session) (op : GenOp)
    (e' : Exn) (fs : list (option Exn)) :
  faults w = Some e' :: fs ->
  exn_class e' <> StopIteration ->
  exn_class e' <> GeneratorExit ->
  exists w',
    gen_step op (GenSuspended db) w = (Raise e', GenClosed, w') /\
    trace w' = (trace w ++ [CallSessionClose db])%list.
Proof.
  destruct w as [tb md pl nid tr lg fl]. simpl. intros -> Hs Hg.
  assert (escaping e' = e') as Hesc.
  { unfold escaping. destruct (exn_class e'); try reflexivity. contradiction. }
  destruct op as [|e|];
    unfold gen_step, get_db_resume, try_finally, session_close, lib_call, ret, raise;
    simpl; rewrite ?Hesc; eauto.
  destruct (exn_class e') eqn:Hc; try contradiction; eauto.
Qed.

Lemma get_db_close_failure_masks_witness :
  let lost := mkExn ValueError "bad request" in
  let seen := mkExn SQLAlchemyError "server closed the connection" in
  let w := mkWorld ∅ ∅ NullPoolState 1 [] [] [Some seen] in
  exists w',
    gen_step (GenThrow lost) (GenSuspended (mkSession 0)) w = (Raise seen, GenClosed, w') /\
    trace w' = [CallSessionClose (mkSession 0)].
Proof.
  intros lost seen w.
  apply (get_db_close_failure_masks w (mkSession 0) (GenThrow lost) seen []);
    [reflexivity | discriminate | discriminate].
Defined.

(** ** Schema lifecycle, on every way out *)

Ltac case_exceptions :=
  repeat match goal with
         | |- context [is_Exception ?e] => destruct (is_Exception e)
         end.

(** [init_db] changes the tables by a [create_all] or not at all, and
    leaves the registry alone. *)
Lemma init_db_frame (w : World) :
  metadata (snd (init_db w)) = metadata w /\
  (tables (snd (init_db w)) = tables w \/
   tables (snd (init_db w)) = create_tables (metadata w) (tables w)).
Proof.
  destruct w as [tb md pl nid tr lg fl].
  destruct fl as [|[e0|] [|[e1|] [|[e2|] [|[e3|] fl]]]]; run; case_exceptions; run; auto.
Qed.

Lemma create_tables_present (reg : gset string) (t : gmap string (list Row)) :
  reg ⊆ dom t -> create_tables reg t = t.
Proof.
  intros Hsub. apply map_eq. intros k. rewrite create_tables_lookup.
  destruct (t !! k) as [rows|] eqn:E; [reflexivity|].
  destruct (decide (k ∈ reg)) as [Hin|Hout]; [|reflexivity].
  apply Hsub, elem_of_dom in Hin. rewrite E in Hin. destruct Hin as [x Hx]. discriminate Hx.
Qed.

(** X9.  Once [create_all] and [engine.connect()] have succeeded,
    [init_db] runs the query and closes the connection it opened on every
    way out: also when the query raises, and whatever [close] itself
    does. *)
Theorem init_db_always_closes_its_connection (w : World) :
  Forall (fun f => f = None) (firstn 2 (faults w)) ->
  let conn := mkConnection (next_id w) in
  trace (snd (init_db w)) =
    (trace w ++ [CallCreateAll; CallConnect conn;
                 CallConnExecute conn "SELECT 1"; CallConnClose conn])%list.
Proof.
  destruct w as [tb md pl nid tr lg fl]. cbn [faults next_id trace]. intros HF.
  destruct fl as [|[e0|] [|[e1|] [|[e2|] [|[e3|] fl]]]]; cbn [firstn] in HF;
    repeat match goal with
           | H : Forall _ (_ :: _) |- _ => apply Forall_cons in H as [? H]
           end;
    try congruence;
    run; case_exceptions; run; rewrite <- ?app_assoc; reflexivity.
Qed.

Lemma init_db_always_closes_its_connection_witness :
  let boom := mkExn SQLAlchemyError "syntax error" in
  let w := mkWorld ∅ {[ "users" ]} NullPoolState 4 [] [] [None; None; Some boom] in
  fst (init_db w) = Raise boom /\
  trace (snd (init_db w)) =
    [CallCreateAll; CallConnect (mkConnection 4);
     CallConnExecute (mkConnection 4) "SELECT 1"; CallConnClose (mkConnection 4)].
Proof.
  intros boom w. split; [reflexivity|].
  apply (init_db_always_closes_its_connection w). repeat constructor.
Defined.

(** X10.  [init_db] never loses data: every table that exists before
    the call exists after it with the same rows, whether the call returns
    or raises, and the registry is as before. *)
Theorem init_db_keeps_existing_rows (w : World) (k : string) (rows : list Row) :
  tables w !! k = Some rows ->
  tables (snd (init_db w)) !! k = Some rows /\
  metadata (snd (init_db w)) = metadata w.
Proof.
  intros Hk. destruct (init_db_frame w) as [Hmd [Ht|Ht]]; rewrite Ht;
    (split; [|exact Hmd]); [exact Hk|].
  apply create_tables_keeps, Hk.
Qed.

Lemma init_db_keeps_existing_rows_witness :
  let boom := mkExn SQLAlchemyError "permission denied" in
  let w := mkWorld {[ "users" := [["ann"]; ["bob"]] ]} {[ "users"; "predictions" ]}
                   NullPoolState 0 [] [] [None; Some boom] in
  tables (snd (init_db w)) !! "users" = Some [["ann"]; ["bob"]] /\
  metadata (snd (init_db w)) = metadata w.
Proof.
  intros boom w. apply (init_db_keeps_existing_rows w). vm_compute. reflexivity.
Defined.

(** X11.  When every registered table already exists, [init_db] leaves
    the tables exactly as they are, so calling it at every start is
    harmless. *)
Theorem init_db_noop_when_tables_exist (w : World) :
  metadata w ⊆ dom (tables w) ->
  tables (snd (init_db w)) = tables w.
Proof.
  intros Hsub. destruct (init_db_frame w) as [_ [Ht|Ht]]; rewrite Ht; [reflexivity|].
  apply create_tables_present, Hsub.
Qed.

Lemma init_db_noop_when_tables_exist_witness :
  let w := mkWorld {[ "users" := [["ann"]]; "audit" := [] ]} {[ "users" ]}
                   NullPoolState 0 [] [] [] in
  tables (snd (init_db w)) = tables w.
Proof.
  intros w. apply (init_db_noop_when_tables_exist w).
  apply (bool_decide_unpack _). vm_compute. exact I.
Defined.

(** X12.  A [drop_db] that succeeds removes every registered table,
    leaves every other table as it was, and logs one warning. *)
Theorem drop_db_removes_registered_tables (w : World) :
  hd None (faults w) = None ->
  exists w',
    drop_db w = (Ok tt, w') /\
    (forall k, k ∈ metadata w -> tables w' !! k = None) /\
    (forall k, k ∉ metadata w -> tables w' !! k = tables w !! k) /\
    log w' = (log w ++ [(WARNING, "All database tables dropped")])%list.
Proof.
  destruct w as [tb md pl nid tr lg fl]. cbn [faults metadata tables log]. intros Hf.
  assert (forall k, drop_tables md tb !! k = if decide (k ∈ md) then None else tb !! k)
    as Hlook by (intros k; apply drop_tables_lookup).
  destruct fl as [|[e0|] fl]; try discriminate Hf; run;
    (eexists; split; [reflexivity|]; cbn [tables log]; split; [|split; [|reflexivity]]);
    intros k Hk; rewrite Hlook; destruct (decide (k ∈ md)); try reflexivity; contradiction.
Qed.

Lemma drop_db_removes_registered_tables_witness :
  let w := mkWorld {[ "users" := [["ann"]]; "audit" := [["login"]] ]} {[ "users" ]}
                   NullPoolState 0 [] [] [] in
  exists w',
    drop_db w = (Ok tt, w') /\
    tables w' !! "users" = None /\
    tables w' !! "audit" = Some [["login"]].
Proof.
  intros w.
  destruct (drop_db_removes_registered_tables w eq_refl) as (w' & Hrun & Hin & Hout & _).
  exists w'. split; [exact Hrun|]. split.
  - apply Hin. apply (bool_decide_unpack _). vm_compute. exact I.
  - rewrite Hout; [vm_compute; reflexivity|].
    apply (bool_decide_unpack _). vm_compute. exact I.
Defined.

(** X13.  A [drop_db] whose [drop_all] raises logs the error with the
    exception's text and hands the same exception to its caller; no
    warning line is logged and no further library call is made. *)
Theorem drop_db_failure_is_logged_and_reraised
    (w : World) (e : Exn) (fs : list (option Exn)) :
  faults w = Some e :: fs ->
  is_Exception e = true ->
  exists w',
    drop_db w = (Raise e, w') /\
    trace w' = (trace w ++ [CallDropAll])%list /\
    log w' = (log w ++ [(ERROR, "Failed to drop database tables: " +:+ exn_msg e)])%list.
Proof.
  destruct w as [tb md pl nid tr lg fl]. cbn [faults trace log]. intros -> He.
  run. rewrite He. eexists. repeat split.
Qed.

Lemma drop_db_failure_is_logged_and_reraised_witness :
  let e := mkExn SQLAlchemyError "permission denied" in
  let w := mkWorld {[ "users" := [["ann"]] ]} {[ "users" ]} NullPoolState 0 [] [] [Some e] in
  exists w',
    drop_db w = (Raise e, w') /\
    trace w' = [CallDropAll] /\
    log w' = [(ERROR, "Failed to drop database tables: permission denied")].
Proof.
  intros e w.
  exact (drop_db_failure_is_logged_and_reraised w e [] eq_refl eq_refl).
Defined.

(** X14.  When [drop_db] raises inside [reset_db], [init_db] is not
    run: the only library call made is [drop_all], and the exception is
    the one [drop_all] raised. *)
Theorem reset_db_stops_when_drop_fails (w : World) (e : Exn) (fs : list (option Exn)) :
  faults w = Some e :: fs ->
  exists w',
    reset_db w = (Raise e, w') /\
    trace w' = (trace w ++ [CallDropAll])%list.
Proof.
  destruct w as [tb md pl nid tr lg fl]. cbn [faults trace]. intros ->.
  run. case_exceptions; eexists; repeat split.
Qed.

Lemma reset_db_stops_when_drop_fails_witness :
  let e := mkExn SQLAlchemyError "permission denied" in
  let w := mkWorld {[ "users" := [["ann"]] ]} {[ "users" ]} NullPoolState 0 [] [] [Some e] in
  exists w',
    reset_db w = (Raise e, w') /\
    trace w' = [CallDropAll].
Proof.
  intros e w. exact (reset_db_stops_when_drop_fails w e [] eq_refl).
Defined.

(** X15.  When [drop_db] succeeds and the [create_all] of [init_db]
    then raises, [reset_db] raises that exception without opening a
    connection, and the rows of the registered tables are lost: afterwards
    a registered table is absent or empty. *)
Theorem reset_db_failure_after_drop_loses_rows
    (w : World) (e : Exn) (fs : list (option Exn)) :
  faults w = None :: Some e :: fs ->
  exists w',
    reset_db w = (Raise e, w') /\
    trace w' = (trace w ++ [CallDropAll; CallCreateAll])%list /\
    (forall k, k ∈ metadata w ->
       tables w' !! k = None \/ tables w' !! k = Some []).
Proof.
  destruct w as [tb md pl nid tr lg fl]. cbn [faults tables trace metadata]. intros ->.
  assert (forall k, drop_tables md tb !! k = if decide (k ∈ md) then None else tb !! k)
    as Hlook by (intros k; apply drop_tables_lookup).
  run. case_exceptions;
    (eexists; split; [reflexivity|]; cbn [tables trace];
     split; [rewrite <- app_assoc; reflexivity|]);
    intros k Hk; left; rewrite Hlook; destruct (decide (k ∈ md));
    [reflexivity | contradiction | reflexivity | contradiction].
Qed.

Lemma reset_db_failure_after_drop_loses_rows_witness :
  let e := mkExn SQLAlchemyError "disk full" in
  let w := mkWorld {[ "users" := [["ann"]] ]} {[ "users" ]} NullPoolState 0 [] []
                   [None; Some e] in
  exists w',
    reset_db w = (Raise e, w') /\
    trace w' = [CallDropAll; CallCreateAll] /\
    (tables w' !! "users" = None \/ tables w' !! "users" = Some []).
Proof.
  intros e w.
  destruct (reset_db_failure_after_drop_loses_rows w e [] eq_refl)
    as (w' & Hrun & Htr & Hin).
  exists w'. split; [exact Hrun|]. split; [exact Htr|].
  apply Hin. apply (bool_decide_unpack _). vm_compute. exact I.
Defined.

(** X16.  Resetting twice gives the same tables as resetting once. *)
Theorem reset_db_twice (w w1 w2 : World) :
  reset_db w = (Ok tt, w1) ->
  reset_db w1 = (Ok tt, w2) ->
  tables w2 = tables w1.
Proof.
  assert (forall u u', reset_db u = (Ok tt, u') ->
            tables u' = create_tables (metadata u) (drop_tables (metadata u) (tables u)) /\
            metadata u' = metadata u) as Hreset.
  { intros u u' H. unfold reset_db, bind in H.
    destruct (drop_db u) as [[[]|e] u1] eqn:Hdrop; [|discriminate H].
    apply drop_db_ok in Hdrop as (Ht1 & Hmd & _ & _).
    pose proof (init_db_frame u1) as [Hmd' _]. rewrite H in Hmd'. simpl in Hmd'.
    apply init_db_ok in H as (Ht & _).
    rewrite Ht, Ht1, Hmd. split; [reflexivity | congruence]. }
  intros H1 H2.
  apply Hreset in H1 as [Ht1 Hmd1]. apply Hreset in H2 as [Ht2 Hmd2].
  rewrite Ht2, Hmd1, Ht1. apply map_eq. intros k.
  rewrite !reset_tables_lookup. destruct (decide (k ∈ metadata w)); reflexivity.
Qed.

Lemma reset_db_twice_witness :
  let w := mkWorld {[ "users" := [["ann"]]; "audit" := [["login"]] ]} {[ "users"; "predictions" ]}
                   NullPoolState 0 [] [] [] in
  tables (snd (reset_db (snd (reset_db w)))) = tables (snd (reset_db w)).
Proof.
  intros w.
  apply (reset_db_twice w (snd (reset_db w)) (snd (reset_db (snd (reset_db w)))));
    vm_compute; reflexivity.
Defined.

(** ** Health check, on every way out *)

(** X17.  With a database layer that fails by raising [Exception]s,
    [check_db_connection] always returns a boolean, and the boolean is
    [True] exactly when all three of [SessionLocal()], the query and
    [close()] succeeded; so a [close()] that raises after a good query
    still gives [False]. *)
Theorem check_db_connection_true_iff_all_succeed (w : World) :
  faults_are_exceptions w = true ->
  exists b w',
    check_db_connection w = (Ok b, w') /\
    (b = true <-> Forall (fun f => f = None) (firstn 3 (faults w))).
Proof.
  destruct w as [tb md pl nid tr lg fl]. intros H. cbn [faults].
  destruct fl as [|[e0|] [|[e1|] [|[e2|] fl]]]; split_faults H; run;
    rewrite ?Hexn, ?Hexn0, ?Hexn1; cbv beta iota;
    eexists _, _; (split; [reflexivity|]); cbn [firstn];
    (split; [intros Hb; try discriminate Hb; repeat constructor|]);
    intros HF;
    repeat match goal with
           | HF : Forall _ (_ :: _) |- _ => apply Forall_cons in HF as [? HF]
           end;
    congruence.
Qed.

Lemma check_db_connection_true_iff_all_succeed_witness :
  let e := mkExn SQLAlchemyError "connection already closed" in
  let w := mkWorld ∅ ∅ NullPoolState 0 [] [] [None; None; Some e] in
  exists b w',
    check_db_connection w = (Ok b, w') /\
    (b = true <-> Forall (fun f => f = None) [None; None; Some e]).
Proof.
  intros e w. exact (check_db_connection_true_iff_all_succeed w eq_refl).
Defined.

(** X18.  [check_db_connection] and [init_db] catch [Exception] only:
    an exception of another kind raised by their first library call leaves
    them uncaught, and nothing is logged. *)
Theorem non_exceptions_are_not_caught (w : World) (e : Exn) (fs : list (option Exn)) :
  faults w = Some e :: fs ->
  is_Exception e = false ->
  (exists w', check_db_connection w = (Raise e, w') /\ log w' = log w) /\
  (exists w', init_db w = (Raise e, w') /\ log w' = log w).
Proof.
  destruct w as [tb md pl nid tr lg fl]. cbn [faults log]. intros -> He.
  split; run; rewrite He; eexists; split; reflexivity.
Qed.

Lemma non_exceptions_are_not_caught_witness :
  let w := mkWorld ∅ ∅ NullPoolState 0 [] [] [Some generator_exit] in
  (exists w', check_db_connection w = (Raise generator_exit, w') /\ log w' = []) /\
  (exists w', init_db w = (Raise generator_exit, w') /\ log w' = []).
Proof.
  intros w. exact (non_exceptions_are_not_caught w generator_exit [] eq_refl eq_refl).
Defined.

(** ** Pool monitoring has no side effect *)

(** X19.  [get_pool_status] changes nothing, whatever the pool is.
    [log_pool_status] makes no library call and touches neither the tables
    nor the pool; it adds one [INFO] line to the log when the status could
    be read and none when reading it raised. *)
Theorem pool_monitoring_only_logs (w : World) :
  snd (get_pool_status w) = w /\
  let w' := snd (log_pool_status w) in
  tables w' = tables w /\ trace w' = trace w /\ faults w' = faults w /\
  pool w' = pool w /\
  match fst (log_pool_status w) with
  | Ok _ => exists msg, log w' = (log w ++ [(INFO, msg)])%list
  | Raise _ => log w' = log w
  end.
Proof.
  destruct (pool w) as [maxsize qsize overflow|] eqn:E.
  - pose proof (get_pool_status_queue w _ _ _ E) as Hst.
    unfold log_pool_status, bind. rewrite Hst. simpl.
    repeat split; eauto.
  - pose proof (get_pool_status_null w E) as Hst.
    unfold log_pool_status, bind. rewrite Hst. simpl.
    repeat split; eauto.
Qed.
